(** * StatisticsGen component construction

    A shallow embedding of [tfx/components/statistics_gen/component.py]:
    the constructor [StatisticsGen.__init__], which resolves the legacy
    [input_data] alias, derives a default output channel (filtering the
    split names of the input examples artifact), serialises the statistics
    options and assembles a [StatisticsGenSpec].

    Python objects that the constructor shares with its caller live in an
    explicit store, so that in-place updates of a list are visible through
    every reference to it. *)

From Equations Require Import Equations.
From stdpp Require Import base list strings functions.

Open Scope string_scope.

(** ** Data model *)

(** Identity of a Python list object. *)
Definition loc := nat.

(** Modelled from the spec: the artifact type of the framework, which is not
    part of [component.py].  An artifact is "a typed output descriptor with a
    mutable attribute [split_names] (ordered sequence of strings)".  The
    attribute holds a reference to a list object; the elements of that list
    are in the store. *)
Record Artifact := mkArtifact {
  type_name : string;
  split_names : loc
}.

(** Modelled from the spec: the channel type of the framework, "a named, typed
    handle to a collection of artifacts"; [get] returns the contained
    artifacts. *)
Record Channel := mkChannel {
  type : string;
  artifacts : list Artifact
}.

Definition get (c : Channel) : list Artifact := artifacts c.

(** The part of the Python world the constructor can read or change: the list
    objects (every reference points to a live object, so the store is total)
    and the messages sent to [absl.logging.warning]. *)
Record World := mkWorld {
  heap : loc -> list string;
  warnings : list string
}.

Definition set_heap (l : loc) (v : list string) (w : World) : World :=
  {| heap := <[l := v]> (heap w); warnings := warnings w |}.

Definition warning (msg : string) (w : World) : World :=
  {| heap := heap w; warnings := warnings w ++ [msg] |}.

(** Exceptions the constructor can end with. *)
Inductive Exception :=
| AttributeError          (* [examples.get()] on [None] *)
| CardinalityError (n : nat)  (* [get_single_instance] on a list of length n <> 1 *)
| ValueError              (* [list.remove(x)]: x not in list *)
| TypeError.              (* [StatisticsGenSpec(...)] without its examples channel *)

Inductive outcome (A : Type) :=
| Return (a : A)
| Raise (e : Exception).
Arguments Return {A} a.
Arguments Raise {A} e.

(** Computations: a world transformer that returns a value or raises. The
    world is kept when an exception is raised (a warning already logged stays
    logged). *)
Definition M (A : Type) := World -> World * outcome A.

Definition ret {A} (a : A) : M A := fun w => (w, Return a).
Definition raise {A} (e : Exception) : M A := fun w => (w, Raise e).
Definition bind {A B} (m : M A) (k : A -> M B) : M B :=
  fun w => match m w with
           | (w', Return a) => k a w'
           | (w', Raise e) => (w', Raise e)
           end.

Notation "'do' x <- m ; k" := (bind m (fun x => k))
  (at level 10, x name, m at level 100, k at level 200).
Notation "m ;; k" := (bind m (fun _ => k))
  (at level 100, k at level 200, right associativity).

(** ** Python primitives *)

(** Truth value of an [Optional[...]] argument holding an object without
    [__bool__] or [__len__] (a channel, a [StatsOptions]): [None] is false,
    any object is true. *)
Definition truthy_obj {A} (o : option A) : bool :=
  match o with Some _ => true | None => false end.

(** Truth value of an [Optional[List[Text]]]: [None] and [[]] are false. *)
Definition truthy_list {A} (o : option (list A)) : bool :=
  match o with Some (_ :: _) => true | _ => false end.

(** [x in xs] on a list of strings. *)
Definition contains (xs : list string) (x : string) : bool :=
  bool_decide (x ∈ xs).

(** [exclude_splits and split in exclude_splits] *)
Definition excluded (exclude_splits : option (list string)) (split : string) : bool :=
  truthy_list exclude_splits &&
  match exclude_splits with Some e => contains e split | None => false end.

(** [list.remove(x)] on the value of a list: the first element equal to [x]
    is dropped; [None] stands for the [ValueError] of a missing element. *)
Fixpoint list_remove (x : string) (l : list string) : option (list string) :=
  match l with
  | [] => None
  | y :: l' => if decide (x = y) then Some l'
               else cons y <$> list_remove x l'
  end.

(** Pairs a value with the equation that a [with] clause forgets. *)
Definition inspect {A} (a : A) : {b : A | a = b} := exist _ a eq_refl.

(** The loop of lines 95-97,

      for split in split_names:
        if exclude_splits and split in exclude_splits:
          split_names.remove(split)

    The list iterator keeps a reference [l] to the list object and an index
    [i]; each step reads the object as it is then: it stops when [i] is past
    the end, and otherwise yields element [i] and moves to [i + 1].  The body
    removes from the very same object.  [exclude_splits] is the caller's
    argument, a list of its own that the loop only reads. *)
Equations? for_split (exclude_splits : option (list string)) (l : loc)
    (i : nat) (w : World) : World * outcome unit
    by wf (length (heap w l) - i) lt :=
  for_split E l i w with inspect (heap w l !! i) := {
    | exist _ None _ => (w, Return tt)
    | exist _ (Some split) Hi with excluded E split := {
      | false => for_split E l (i + 1) w
      | true with inspect (list_remove split (heap w l)) := {
        | exist _ (Some rest) Hr => for_split E l (i + 1) (set_heap l rest w)
        | exist _ None _ => (w, Raise ValueError) } } }.
Proof.
  - (* a removal shortens the list by one and the index moves on *)
    assert (Hlen : forall k k' : list string,
               list_remove split k = Some k' -> length k = S (length k')).
    { induction k as [|y k IH]; intros k'; simpl; [done|].
      destruct (decide (split = y)); [by intros [= ->]|].
      destruct (list_remove split k) as [k0|]; simpl; [|done].
      intros [= <-]. simpl. f_equal. by apply IH. }
    apply lookup_lt_Some in Hi. simpl. rewrite fn_lookup_insert.
    apply Hlen in Hr. lia.
  - apply lookup_lt_Some in Hi. lia.
Qed.

(** Modelled from the spec: [artifact_utils.get_single_instance], which is
    not part of [component.py]: "read the single artifact instance from the
    examples channel (fails with a cardinality error if the channel does not
    contain exactly one artifact)". *)
Definition get_single_instance (artifact_list : list Artifact) : M Artifact :=
  match artifact_list with
  | [a] => ret a
  | _ => raise (CardinalityError (length artifact_list))
  end.

(** [absl.logging.warning(msg)] *)
Definition logging_warning (msg : string) : M unit :=
  fun w => (warning msg w, Return tt).

Definition dquote : string := String (Ascii.ascii_of_nat 34) EmptyString.

(** The text of lines 87-89. *)
Definition deprecation_message : string :=
  "The " ++ dquote ++ "input_data" ++ dquote ++
  " argument to the StatisticsGen component has " ++
  "been renamed to " ++ dquote ++ "examples" ++ dquote ++
  " and is deprecated. Please update your " ++
  "usage as support for this argument will be removed soon.".

(** Modelled from the spec: [StatisticsGenSpec], declared outside
    [component.py]: an "immutable record aggregating: input examples channel,
    optional schema channel, serialized options, list of excluded split names,
    output channel".  The examples channel is required ("examples channel
    (required, unless legacy alias supplied)"), the schema, the options and
    the exclusion list are optional.  The fields have the keyword names of
    lines 104-109. *)
Record StatisticsGenSpec := mkStatisticsGenSpec {
  examples : Channel;
  schema : option Channel;
  stats_options_json : option string;
  exclude_splits : option (list string);
  statistics : Channel
}.

(** Modelled from the spec: the call [StatisticsGenSpec(examples=...,
    schema=..., stats_options_json=..., exclude_splits=..., statistics=...)]
    of lines 104-109.  The arguments come as the constructor has them, so
    [examples] may still be [None] here; the spec requires the channel, and
    the call without it raises instead of building a record. *)
Definition new_StatisticsGenSpec (examples schema : option Channel)
    (stats_options_json : option string)
    (exclude_splits : option (list string))
    (statistics : Channel) : M StatisticsGenSpec :=
  match examples with
  | Some c => ret (mkStatisticsGenSpec c schema stats_options_json
                     exclude_splits statistics)
  | None => raise TypeError
  end.

(** Modelled from the spec: what the base registration routine
    ([BaseComponent.__init__], outside [component.py]) receives: "the spec ...
    along with the optional instance name". *)
Record StatisticsGen := mkStatisticsGen {
  spec : StatisticsGenSpec;
  instance_name : option string
}.

Section Construction.

(** [tfdv.StatsOptions] and its [to_json] belong to an external library. *)
Context {StatsOptions : Type} (to_json : StatsOptions -> string).

(** Lines 91-101: the default output channel. *)
Definition default_output (examples : option Channel)
    (exclude_splits : option (list string)) : M Channel :=
  (* statistics_artifact = standard_artifacts.ExampleStatistics() *)
  do artifact_list <- match examples with      (* list(examples.get()) *)
                      | Some c => ret (get c)
                      | None => raise AttributeError
                      end;
  do instance <- get_single_instance artifact_list;
  (* split_names = ... .split_names: the attribute's list object itself *)
  let split_names := split_names instance in
  for_split exclude_splits split_names 0 ;;
  (* statistics_artifact.split_names = split_names *)
  let statistics_artifact := mkArtifact "ExampleStatistics" split_names in
  ret (mkChannel "ExampleStatistics" [statistics_artifact]).

(** [StatisticsGen.__init__], lines 85-110. *)
Definition __init__ (examples schema : option Channel)
    (stats_options : option StatsOptions)
    (exclude_splits : option (list string))
    (output input_data : option Channel)
    (instance_name : option string) : M StatisticsGen :=
  do examples <- (if truthy_obj input_data
                  then logging_warning deprecation_message ;; ret input_data
                  else ret examples);
  do output <- match output with               (* if not output: *)
               | None => default_output examples exclude_splits
               | Some o => ret o
               end;
  let stats_options_json :=
    match stats_options with                   (* ... if stats_options else None *)
    | Some o => Some (to_json o)
    | None => None
    end in
  do spec <- new_StatisticsGenSpec examples schema stats_options_json
                                   exclude_splits output;
  ret (mkStatisticsGen spec instance_name).

End Construction.

(** ** Observations *)

(** The value of an artifact's [split_names] attribute in a world. *)
Definition split_names_of (w : World) (a : Artifact) : list string :=
  heap w (split_names a).

(** The [split_names] of the artifacts in a component's output channel. *)
Definition output_split_names (w : World) (c : StatisticsGen) : list (list string) :=
  split_names_of w <$> artifacts (statistics (spec c)).

(** Lines 85-90 seen from outside: the channel that [examples] stands for
    after the alias is resolved, and the world after the warning. *)
Definition resolved_examples (examples input_data : option Channel) : option Channel :=
  if truthy_obj input_data then input_data else examples.

Definition alias_world (input_data : option Channel) (w : World) : World :=
  if truthy_obj input_data then warning deprecation_message w else w.

(** A split-name sequence with every element that belongs to the exclusion
    list removed (an absent list excludes nothing). *)
Definition without_excluded (exclude_splits : option (list string))
    (names : list string) : list string :=
  filter (fun x => x ∉ default [] exclude_splits) names.

(** The loop [for_split] seen on the value of the list alone; lemma
    [for_split_heap] shows that this is what the loop leaves in the list
    object. *)
Equations? for_split_value (exclude_splits : option (list string))
    (names : list string) (i : nat) : list string
    by wf (length names - i) lt :=
  for_split_value E names i with inspect (names !! i) := {
    | exist _ None _ => names
    | exist _ (Some split) Hi with excluded E split := {
      | false => for_split_value E names (i + 1)
      | true with inspect (list_remove split names) := {
        | exist _ (Some rest) Hr => for_split_value E rest (i + 1)
        | exist _ None _ => names } } }.
Proof.
  - assert (Hlen : forall k k' : list string,
               list_remove split k = Some k' -> length k = S (length k')).
    { induction k as [|y k IH]; intros k'; simpl; [done|].
      destruct (decide (split = y)); [by intros [= ->]|].
      destruct (list_remove split k) as [k0|]; simpl; [|done].
      intros [= <-]. simpl. f_equal. by apply IH. }
    apply lookup_lt_Some in Hi. apply Hlen in Hr. lia.
  - apply lookup_lt_Some in Hi. lia.
Qed.

(** ** The loop in closed form *)

(** What the loop comes to on a sequence without repeated names (theorem
    [derived_split_names_closed_form]): a name on the exclusion list is
    dropped, and the name that follows it is kept without being tested. *)
Fixpoint keep_after_removal (exclude_splits : option (list string))
    (names : list string) : list string :=
  match names with
  | [] => []
  | x :: rest =>
      if excluded exclude_splits x
      then match rest with
           | [] => []
           | y :: rest' => y :: keep_after_removal exclude_splits rest'
           end
      else x :: keep_after_removal exclude_splits rest
  end.

(** No two neighbours in the sequence are both on the exclusion list. *)
Fixpoint no_adjacent_excluded (exclude_splits : option (list string))
    (names : list string) : bool :=
  match names with
  | x :: rest =>
      match rest with
      | y :: _ => negb (excluded exclude_splits x && excluded exclude_splits y)
      | [] => true
      end && no_adjacent_excluded exclude_splits rest
  | [] => true
  end.

(** ** Sample inputs *)

Definition examples_artifact : Artifact := mkArtifact "Examples" 0.
Definition examples_channel : Channel := mkChannel "Examples" [examples_artifact].
Definition empty_channel : Channel := mkChannel "Examples" [].
Definition statistics_channel : Channel :=
  mkChannel "ExampleStatistics" [mkArtifact "ExampleStatistics" 1].

(** A world whose list object 0 holds [names]; nothing was logged yet. *)
Definition world_of (names : list string) : World :=
  {| heap := fun l => if decide (l = 0) then names else []; warnings := [] |}.

(** A stand-in for [StatsOptions.to_json] on options given by their text. *)
Definition sample_to_json (o : string) : string := "{" ++ o ++ "}".

(** Rewrites with the equations that a case of the loop has in its context. *)
Ltac loop_case :=
  repeat match goal with
  | H : ?l !! ?i = _ |- context [?l !! ?i] => rewrite H
  | H : excluded ?E ?x = _ |- context [excluded ?E ?x] => rewrite H
  | H : list_remove ?x ?l = _ |- context [list_remove ?x ?l] => rewrite H
  end.

(** ** Properties of [list.remove] *)

Lemma list_remove_length x l l' :
  list_remove x l = Some l' -> length l = S (length l').
Proof.
  revert l'. induction l as [|y l IH]; intros l'; simpl; [done|].
  destruct (decide (x = y)); [by intros [= ->]|].
  destruct (list_remove x l) as [k|]; simpl; [|done].
  intros [= <-]. simpl. f_equal. by apply IH.
Qed.

(** Removing an element that is in the list never raises. *)
Lemma list_remove_elem x l : x ∈ l -> is_Some (list_remove x l).
Proof.
  induction l as [|y l IH]; simpl.
  - by intros ?%elem_of_nil.
  - intros Hx. destruct (decide (x = y)); [by eexists|].
    apply elem_of_cons in Hx as [?|Hx]; [done|].
    destruct (IH Hx) as [k ->]. by eexists.
Qed.

Lemma list_remove_sublist x l l' :
  list_remove x l = Some l' -> l' `sublist_of` l.
Proof.
  revert l'. induction l as [|y l IH]; intros l'; simpl; [done|].
  destruct (decide (x = y)).
  - intros [= ->]. by apply sublist_cons.
  - destruct (list_remove x l) as [k|]; simpl; [|done].
    intros [= <-]. apply sublist_skip. by apply IH.
Qed.

(** Only a copy of [x] leaves the list: a filter that rejects [x] sees the
    same elements before and after. *)
Lemma list_remove_filter (P : string -> Prop) `{!∀ y, Decision (P y)} x l l' :
  list_remove x l = Some l' -> ¬ P x ->
  filter P l' = filter P l.
Proof.
  revert l'. induction l as [|y l IH]; intros l'; simpl; [done|].
  destruct (decide (x = y)) as [<-|Hne].
  - intros [= ->] HP. by rewrite filter_cons_False.
  - destruct (list_remove x l) as [k|]; simpl; [|done].
    intros [= <-] HP. rewrite !filter_cons.
    by rewrite (IH k eq_refl HP).
Qed.

(** ** The loop, one iteration at a time *)

Lemma for_split_value_step E names i :
  for_split_value E names i =
  match names !! i with
  | None => names
  | Some split =>
      if excluded E split
      then match list_remove split names with
           | Some rest => for_split_value E rest (i + 1)
           | None => names
           end
      else for_split_value E names (i + 1)
  end.
Proof. funelim (for_split_value E names i); by loop_case. Qed.

Lemma for_split_step E l i w :
  for_split E l i w =
  match heap w l !! i with
  | None => (w, Return tt)
  | Some split =>
      if excluded E split
      then match list_remove split (heap w l) with
           | Some rest => for_split E l (i + 1) (set_heap l rest w)
           | None => (w, Raise ValueError)
           end
      else for_split E l (i + 1) w
  end.
Proof. funelim (for_split E l i w); by loop_case. Qed.

Lemma excluded_spec E x :
  excluded E x = true <-> exists e, E = Some e /\ x ∈ e.
Proof.
  unfold excluded, truthy_list, contains. split.
  - destruct E as [[|y e]|]; simpl; try done.
    intros ?%bool_decide_eq_true. eauto.
  - intros (e & -> & Hx). destruct e as [|y e]; [by apply elem_of_nil in Hx|].
    simpl. by apply bool_decide_eq_true.
Qed.

Lemma excluded_elem_of E x : excluded E x = true <-> x ∈ default [] E.
Proof.
  rewrite excluded_spec. split.
  - by intros (e & -> & Hx).
  - destruct E as [e|]; simpl; [eauto|by intros ?%elem_of_nil].
Qed.

(** ** What the loop does to the store *)

(** The loop never raises; it changes nothing but the list object it iterates
    over, and leaves there what [for_split_value] computes. *)
Lemma for_split_result E l i w :
  exists w',
    for_split E l i w = (w', Return tt) /\
    warnings w' = warnings w /\
    heap w' l = for_split_value E (heap w l) i /\
    forall l', l' <> l -> heap w' l' = heap w l'.
Proof.
  funelim (for_split E l i w); rewrite for_split_value_step; loop_case.
  - by exists w.
  - done.
  - destruct H as (w' & Hrun & Hlog & Hheap & Hframe).
    exists w'. split_and!; [done|done| |].
    + rewrite Hheap. simpl. by rewrite fn_lookup_insert.
    + intros l' Hl'. rewrite (Hframe l' Hl'). simpl.
      by rewrite fn_lookup_insert_ne.
  - exfalso. pose proof (list_elem_of_lookup_2 _ _ _ Hi) as Hin.
    apply list_remove_elem in Hin. rewrite e in Hin. by destruct Hin.
Qed.

Lemma for_split_heap E l i w :
  heap (for_split E l i w).1 l = for_split_value E (heap w l) i.
Proof.
  destruct (for_split_result E l i w) as (w' & Hrun & _ & Hheap & _).
  by rewrite Hrun.
Qed.

(** ** What the loop keeps *)

Lemma for_split_value_sublist E names i :
  for_split_value E names i `sublist_of` names.
Proof.
  funelim (for_split_value E names i); try done.
  etrans; [eassumption|]. by eapply list_remove_sublist.
Qed.

Lemma for_split_value_kept E names i :
  without_excluded E (for_split_value E names i) = without_excluded E names.
Proof.
  funelim (for_split_value E names i); try done.
  etrans; [eassumption|]. unfold without_excluded.
  eapply list_remove_filter; [done|].
  apply excluded_elem_of in Heq. by intros ?.
Qed.

(** Nothing to exclude: the loop leaves the sequence as it is. *)
Lemma for_split_value_id E names i :
  (forall x, x ∈ names -> excluded E x = false) ->
  for_split_value E names i = names.
Proof.
  funelim (for_split_value E names i); intros Hno; try done.
  - by apply H.
  - pose proof (list_elem_of_lookup_2 _ _ _ Hi) as Hin.
    apply Hno in Hin. congruence.
Qed.

Lemma for_split_value_dropped E names i x :
  x ∈ names -> x ∉ for_split_value E names i -> x ∈ default [] E.
Proof.
  intros Hin Hout. destruct (decide (x ∈ default [] E)) as [|Hx]; [done|].
  exfalso. apply Hout.
  assert (Hk : x ∈ without_excluded E names)
    by (by apply list_elem_of_filter).
  rewrite <- (for_split_value_kept E names i) in Hk.
  by apply list_elem_of_filter in Hk as [_ ?].
Qed.

(** ** The constructor *)

Lemma default_output_single ch a E w :
  get ch = [a] ->
  exists w',
    default_output (Some ch) E w =
      (w', Return (mkChannel "ExampleStatistics"
                     [mkArtifact "ExampleStatistics" (split_names a)])) /\
    warnings w' = warnings w /\
    split_names_of w' a = for_split_value E (split_names_of w a) 0 /\
    forall l, l <> split_names a -> heap w' l = heap w l.
Proof.
  intros Hget. unfold default_output, bind, ret. rewrite Hget. simpl.
  destruct (for_split_result E (split_names a) 0 w)
    as (w' & -> & Hlog & Hheap & Hframe).
  by exists w'.
Qed.

Lemma default_output_cardinality ch E w :
  length (get ch) <> 1 ->
  default_output (Some ch) E w =
    (w, Raise (CardinalityError (length (get ch)))).
Proof.
  intros Hlen. unfold default_output, bind, ret, get_single_instance, raise.
  by destruct (get ch) as [|a [|b k]].
Qed.

Section Properties.

Context {StatsOptions : Type} (to_json : StatsOptions -> string).

Lemma init_explicit_output ex sch opts E o legacy name w :
  __init__ to_json ex sch opts E (Some o) legacy name w =
    match resolved_examples ex legacy with
    | Some ch =>
        (alias_world legacy w,
         Return (mkStatisticsGen
                   (mkStatisticsGenSpec ch sch (to_json <$> opts) E o) name))
    | None => (alias_world legacy w, Raise TypeError)
    end.
Proof.
  unfold __init__, new_StatisticsGenSpec, alias_world, resolved_examples,
    bind, ret, raise, logging_warning.
  by destruct legacy, ex, opts.
Qed.

Lemma init_default_output ex sch opts E legacy name w :
  __init__ to_json ex sch opts E None legacy name w =
    match default_output (resolved_examples ex legacy) E
            (alias_world legacy w) with
    | (w', Return o) =>
        match resolved_examples ex legacy with
        | Some ch =>
            (w', Return (mkStatisticsGen
                           (mkStatisticsGenSpec ch sch (to_json <$> opts) E o)
                           name))
        | None => (w', Raise TypeError)
        end
    | (w', Raise e) => (w', Raise e)
    end.
Proof.
  unfold __init__, new_StatisticsGenSpec, alias_world, resolved_examples,
    bind, ret, raise, logging_warning.
  destruct legacy; simpl.
  all: destruct (default_output _ E _) as [w' [o|e]]; by destruct ex, opts.
Qed.

(** Construction without an explicit output, on a channel with a single
    artifact: it succeeds, the output artifact shares the list object of the
    input artifact, and that object holds what the loop left. *)
Lemma init_derived ex sch opts E legacy name ch a w :
  resolved_examples ex legacy = Some ch ->
  get ch = [a] ->
  exists w' c,
    __init__ to_json ex sch opts E None legacy name w
      = (w', Return c) /\
    examples (spec c) = ch /\
    output_split_names w' c = [split_names_of w' a] /\
    split_names_of w' a = for_split_value E (split_names_of w a) 0 /\
    warnings w' = warnings (alias_world legacy w).
Proof.
  intros Hex Hget. rewrite init_default_output, Hex.
  destruct (default_output_single ch a E (alias_world legacy w) Hget)
    as (w' & -> & Hlog & Hheap & _).
  eexists _, _. split_and!; [done|done|done| |done].
  rewrite Hheap. unfold split_names_of, alias_world.
  by destruct (truthy_obj legacy).
Qed.

(** A channel holds exactly one artifact or it does not. *)
Lemma single_or_not (ch : Channel) :
  (exists a, get ch = [a]) \/ length (get ch) <> 1.
Proof. destruct (get ch) as [|a [|b k]]; simpl; eauto. Qed.

(** The legacy path, whatever [examples] was: one warning, no error of its
    own, and [input_data] in the spec. *)
Lemma init_alias ex sch opts E out name d w :
  let r := __init__ to_json ex sch opts E out (Some d) name w in
  warnings r.1 = (warnings w ++ [deprecation_message])%list /\
  ((exists c, r.2 = Return c) <-> (is_Some out \/ length (get d) = 1)) /\
  (forall c, r.2 = Return c -> examples (spec c) = d) /\
  (forall e, r.2 = Raise e -> e = CardinalityError (length (get d))).
Proof.
  destruct out as [o|]; cbv zeta.
  - rewrite init_explicit_output.
    change (resolved_examples ex (Some d)) with (Some d).
    simpl. split_and!; [done| | |done].
    + split; [intros _; left; by eexists|by eexists].
    + by intros c [= <-].
  - rewrite init_default_output.
    change (resolved_examples ex (Some d)) with (Some d).
    destruct (single_or_not d) as [[a Hget]|Hlen].
    + destruct (default_output_single d a E (alias_world (Some d) w) Hget)
        as (w' & -> & Hlog & _). simpl. split_and!; [done| | |done].
      * split; [intros _; right; by rewrite Hget|by eexists].
      * by intros c [= <-].
    + rewrite default_output_cardinality by done. simpl.
      split_and!; [done| |done|by intros e [= <-]].
      split; [by intros [c ?]|]. intros [[o Ho]|?]; done.
Qed.

(** ** The claims *)

(** C1 (the code departs from it).  The claim: the derived output
    [split_names] is the input sequence with every element of the exclusion
    list removed.  On [train, eval, test] with [eval] and [test] excluded the
    loop removes [eval], the iterator moves past the element that took its
    place, and the output artifact keeps [test]: it is [train, test], not
    [train]. *)
Theorem exclusion_after_removal_is_skipped ex sch opts legacy name ch a w :
  resolved_examples ex legacy = Some ch ->
  get ch = [a] ->
  split_names_of w a = ["train"; "eval"; "test"] ->
  exists w' c,
    __init__ to_json ex sch opts (Some ["eval"; "test"]) None legacy name w
      = (w', Return c) /\
    output_split_names w' c = [["train"; "test"]] /\
    without_excluded (Some ["eval"; "test"]) (split_names_of w a) = ["train"].
Proof.
  intros Hex Hget HS.
  destruct (init_derived ex sch opts (Some ["eval"; "test"]) legacy name ch a w
              Hex Hget) as (w' & c & Hrun & _ & Hout & Hval & _).
  exists w', c. split_and!; [done| |by rewrite HS].
  by rewrite Hout, Hval, HS.
Qed.

(** C2 (the code departs from it).  The claim: the derivation works on a
    copy, so the input examples artifact keeps its [split_names].  The code
    removes from the artifact's own list object: on [train, eval, test] with
    [test] excluded the input artifact reads [train, eval] afterwards, and
    the output artifact refers to that same object. *)
Theorem input_split_names_changed_in_place ex sch opts legacy name ch a w :
  resolved_examples ex legacy = Some ch ->
  get ch = [a] ->
  split_names_of w a = ["train"; "eval"; "test"] ->
  exists w' c,
    __init__ to_json ex sch opts (Some ["test"]) None legacy name w
      = (w', Return c) /\
    split_names_of w' a = ["train"; "eval"] /\
    split_names_of w' a <> split_names_of w a /\
    split_names <$> artifacts (statistics (spec c)) = [split_names a].
Proof.
  intros Hex Hget HS. rewrite init_default_output, Hex.
  destruct (default_output_single ch a (Some ["test"]) (alias_world legacy w) Hget)
    as (w' & -> & _ & Hheap & _).
  assert (Hw : split_names_of (alias_world legacy w) a = split_names_of w a)
    by (unfold alias_world; by destruct (truthy_obj legacy)).
  rewrite Hw, HS in Hheap.
  eexists _, _. split_and!; [done|by rewrite Hheap| |done].
  by rewrite Hheap, HS.
Qed.

(** C3.  An explicit output channel is the spec's [statistics] field as it
    was given, and the derivation does not run: given an examples channel,
    whatever number of artifacts it holds (none or several, on which the
    derivation would raise, as well as one), construction returns, and no
    list object changes. *)
Theorem explicit_output_used_verbatim ex sch opts E o legacy name ch w :
  resolved_examples ex legacy = Some ch ->
  exists w' c,
    __init__ to_json ex sch opts E (Some o) legacy name w = (w', Return c) /\
    statistics (spec c) = o /\
    heap w' = heap w.
Proof.
  intros Hex. rewrite init_explicit_output, Hex.
  eexists _, _. split_and!; [done|done|].
  unfold alias_world. by destruct (truthy_obj legacy).
Qed.

(** C4 (amended).  With [input_data] given and [examples] not: exactly one
    deprecation warning is logged and the alias raises nothing of its own;
    construction returns exactly when an explicit output channel is given
    or [input_data] holds exactly one artifact, the spec's [examples] field
    is then [input_data], and the only error is the cardinality error of
    the channel inspection. *)
Theorem legacy_alias_resolution sch opts E out name d w :
  let r := __init__ to_json None sch opts E out (Some d) name w in
  warnings r.1 = (warnings w ++ [deprecation_message])%list /\
  ((exists c, r.2 = Return c) <-> (is_Some out \/ length (get d) = 1)) /\
  (forall c, r.2 = Return c -> examples (spec c) = d) /\
  (forall e, r.2 = Raise e -> e = CardinalityError (length (get d))).
Proof. apply init_alias. Qed.

(** C5.  In an assembled spec, [stats_options_json] is [None] when
    [stats_options] was omitted, and the [to_json] form of the object when
    one was given. *)
Theorem stats_options_serialised ex sch opts E out legacy name w w' c :
  __init__ to_json ex sch opts E out legacy name w = (w', Return c) ->
  (opts = None -> stats_options_json (spec c) = None) /\
  (forall o, opts = Some o -> stats_options_json (spec c) = Some (to_json o)).
Proof.
  intros Hrun.
  assert (Hjson : stats_options_json (spec c) = to_json <$> opts).
  { destruct out as [o|].
    - rewrite init_explicit_output in Hrun.
      destruct (resolved_examples ex legacy) as [ch|]; [|done].
      by injection Hrun as _ <-.
    - rewrite init_default_output in Hrun.
      destruct (default_output _ E _) as [w1 [o|e]]; [|done].
      destruct (resolved_examples ex legacy) as [ch|]; [|done].
      by injection Hrun as _ <-. }
  rewrite Hjson. split; [by intros ->|by intros o ->].
Qed.

(** C6.  Without an explicit output channel, construction fails if and only
    if the examples channel does not hold exactly one artifact, and the
    failure is the error of [get_single_instance] itself, raised in the
    world the alias resolution left. *)
Theorem construction_fails_iff_not_single ex sch opts E legacy name ch w :
  resolved_examples ex legacy = Some ch ->
  let r := __init__ to_json ex sch opts E None legacy name w in
  ((exists e, r.2 = Raise e) <-> length (get ch) <> 1) /\
  (length (get ch) = 1 -> exists c, r.2 = Return c) /\
  (forall e, r.2 = Raise e ->
     r = (alias_world legacy w, Raise e) /\
     get_single_instance (get ch) (alias_world legacy w)
       = (alias_world legacy w, Raise e)).
Proof.
  intros Hex. cbv zeta. rewrite init_default_output, Hex.
  destruct (single_or_not ch) as [[a Hget]|Hlen].
  - destruct (default_output_single ch a E (alias_world legacy w) Hget)
      as (w' & -> & _). simpl. rewrite Hget. simpl.
    split_and!; [|by eexists|done].
    split; [by intros [e ?]|done].
  - rewrite default_output_cardinality by done. simpl.
    split_and!; [by split; [|eexists]|done|].
    intros e [= <-]. split; [done|].
    unfold get_single_instance, raise.
    by destruct (get ch) as [|a [|b k]].
Qed.

(** C7.  If [exclude_splits] is empty (or absent) or names only splits that
    the input sequence does not contain, the derived output [split_names]
    is the input sequence unchanged. *)
Theorem no_matching_exclusion_keeps_split_names
    ex sch opts E legacy name ch a w :
  resolved_examples ex legacy = Some ch ->
  get ch = [a] ->
  (forall e x, E = Some e -> x ∈ e -> x ∉ split_names_of w a) ->
  exists w' c,
    __init__ to_json ex sch opts E None legacy name w = (w', Return c) /\
    output_split_names w' c = [split_names_of w a].
Proof.
  intros Hex Hget Hno.
  destruct (init_derived ex sch opts E legacy name ch a w Hex Hget)
    as (w' & c & Hrun & _ & Hout & Hval & _).
  exists w', c. split; [done|]. rewrite Hout, Hval. f_equal.
  apply for_split_value_id. intros x Hx.
  destruct (excluded E x) eqn:Hexc; [|done].
  apply excluded_spec in Hexc as (e & -> & Hin).
  by destruct (Hno e x eq_refl Hin).
Qed.

(** C8.  One examples artifact with split names [train, eval, test],
    [exclude_splits = [test]], no explicit output: the derived output
    artifact's [split_names] is [train, eval]. *)
Theorem example_exclude_test ex sch opts legacy name ch a w :
  resolved_examples ex legacy = Some ch ->
  get ch = [a] ->
  split_names_of w a = ["train"; "eval"; "test"] ->
  exists w' c,
    __init__ to_json ex sch opts (Some ["test"]) None legacy name w
      = (w', Return c) /\
    output_split_names w' c = [["train"; "eval"]].
Proof.
  intros Hex Hget HS.
  destruct (init_derived ex sch opts (Some ["test"]) legacy name ch a w Hex Hget)
    as (w' & c & Hrun & _ & Hout & Hval & _).
  exists w', c. split; [done|]. by rewrite Hout, Hval, HS.
Qed.

(** C9.  With both [examples] and [input_data] given, [input_data] wins
    without an error of its own: the result is the one construction gives
    when [examples] is omitted, so the supplied [examples] plays no part;
    the spec's [examples] field is [input_data], and the deprecation
    warning is logged. *)
Theorem input_data_takes_precedence sch opts E out name e d w :
  let r := __init__ to_json (Some e) sch opts E out (Some d) name w in
  r = __init__ to_json None sch opts E out (Some d) name w /\
  warnings r.1 = (warnings w ++ [deprecation_message])%list /\
  (forall c, r.2 = Return c -> examples (spec c) = d) /\
  ((exists c, r.2 = Return c) <-> (is_Some out \/ length (get d) = 1)).
Proof.
  cbv zeta. split; [by destruct out|].
  destruct (init_alias (Some e) sch opts E out name d w) as (Hlog & Hok & Hex & _).
  done.
Qed.

(** C10.  The derived output [split_names] is a subsequence of the input
    sequence, and a name of the input that is absent from it belongs to the
    exclusion list; the names outside the exclusion list are all kept, in
    number and order. *)
Theorem derived_split_names_subsequence ex sch opts E legacy name ch a w :
  resolved_examples ex legacy = Some ch ->
  get ch = [a] ->
  exists w' c R,
    __init__ to_json ex sch opts E None legacy name w = (w', Return c) /\
    output_split_names w' c = [R] /\
    R `sublist_of` split_names_of w a /\
    (forall x, x ∈ split_names_of w a -> x ∉ R ->
               exists e, E = Some e /\ x ∈ e) /\
    without_excluded E R = without_excluded E (split_names_of w a).
Proof.
  intros Hex Hget.
  destruct (init_derived ex sch opts E legacy name ch a w Hex Hget)
    as (w' & c & Hrun & _ & Hout & Hval & _).
  exists w', c, (split_names_of w' a). rewrite Hval.
  split_and!; [done|by rewrite Hout, Hval| | |].
  - apply for_split_value_sublist.
  - intros x Hin Hnot. apply excluded_spec, excluded_elem_of.
    by eapply for_split_value_dropped.
  - apply for_split_value_kept.
Qed.

End Properties.

(** ** The claims on sample inputs *)

Lemma exclusion_after_removal_is_skipped_witness :
  exists w' c,
    __init__ sample_to_json (Some examples_channel) None None
      (Some ["eval"; "test"]) None None None (world_of ["train"; "eval"; "test"])
      = (w', Return c) /\
    output_split_names w' c = [["train"; "test"]] /\
    without_excluded (Some ["eval"; "test"])
      (split_names_of (world_of ["train"; "eval"; "test"]) examples_artifact)
      = ["train"].
Proof.
  apply (exclusion_after_removal_is_skipped sample_to_json
           (Some examples_channel) None None None None
           examples_channel examples_artifact); reflexivity.
Defined.

Lemma input_split_names_changed_in_place_witness :
  exists w' c,
    __init__ sample_to_json (Some examples_channel) None None
      (Some ["test"]) None None None (world_of ["train"; "eval"; "test"])
      = (w', Return c) /\
    split_names_of w' examples_artifact = ["train"; "eval"] /\
    split_names_of w' examples_artifact
      <> split_names_of (world_of ["train"; "eval"; "test"]) examples_artifact /\
    split_names <$> artifacts (statistics (spec c)) = [split_names examples_artifact].
Proof.
  apply (input_split_names_changed_in_place sample_to_json
           (Some examples_channel) None None None None
           examples_channel examples_artifact); reflexivity.
Defined.

Lemma explicit_output_used_verbatim_witness :
  exists w' c,
    __init__ sample_to_json (Some empty_channel) None None (Some ["test"])
      (Some statistics_channel) None None (world_of ["train"; "eval"; "test"])
      = (w', Return c) /\
    statistics (spec c) = statistics_channel /\
    heap w' = heap (world_of ["train"; "eval"; "test"]).
Proof.
  apply (explicit_output_used_verbatim sample_to_json (Some empty_channel)
           None None (Some ["test"]) statistics_channel None None
           empty_channel (world_of ["train"; "eval"; "test"])); reflexivity.
Defined.

(** C4 as it is worded fails: with [input_data] an empty channel and no
    explicit output, construction does not succeed. *)
Lemma legacy_alias_empty_channel_raises :
  let r := __init__ sample_to_json None None None None None
             (Some empty_channel) None (world_of []) in
  r.2 = Raise (CardinalityError 0) /\ ~ exists c, r.2 = Return c.
Proof. cbv zeta. split; [reflexivity|]. intros [c Hc]. discriminate Hc. Qed.

Lemma legacy_alias_resolution_witness :
  let r := __init__ sample_to_json None None None None None
             (Some examples_channel) None (world_of ["train"; "eval"]) in
  warnings r.1 = [deprecation_message] /\
  exists c, r.2 = Return c /\ examples (spec c) = examples_channel.
Proof.
  cbv zeta.
  destruct (legacy_alias_resolution sample_to_json None None None None None
              examples_channel (world_of ["train"; "eval"]))
    as (Hlog & Hok & Hex & _).
  split; [exact Hlog|].
  destruct (proj2 Hok (or_intror eq_refl)) as [c Hc].
  exists c. split; [exact Hc|exact (Hex c Hc)].
Defined.

Lemma stats_options_serialised_witness :
  let w := world_of ["train"; "eval"] in
  let without := mkStatisticsGen
    (mkStatisticsGenSpec examples_channel None None None
       statistics_channel) None in
  let with_options := mkStatisticsGen
    (mkStatisticsGenSpec examples_channel None (Some "{num_top_values=2}")
       None statistics_channel) None in
  (__init__ sample_to_json (Some examples_channel) None None None
     (Some statistics_channel) None None w = (w, Return without) /\
   stats_options_json (spec without) = None) /\
  (__init__ sample_to_json (Some examples_channel) None (Some "num_top_values=2")
     None (Some statistics_channel) None None w = (w, Return with_options) /\
   stats_options_json (spec with_options)
     = Some (sample_to_json "num_top_values=2")).
Proof.
  intros w without with_options. split; (split; [reflexivity|]).
  - exact (proj1 (stats_options_serialised sample_to_json
             (Some examples_channel) None None None (Some statistics_channel)
             None None w w without eq_refl) eq_refl).
  - exact (proj2 (stats_options_serialised sample_to_json
             (Some examples_channel) None (Some "num_top_values=2") None
             (Some statistics_channel) None None w w with_options eq_refl)
             "num_top_values=2" eq_refl).
Defined.

Lemma construction_fails_iff_not_single_witness :
  let r := __init__ sample_to_json (Some empty_channel) None None None None
             None None (world_of []) in
  resolved_examples (Some empty_channel) None = Some empty_channel /\
  ((exists e, r.2 = Raise e) <-> length (get empty_channel) <> 1).
Proof.
  cbv zeta. split; [reflexivity|].
  exact (proj1 (construction_fails_iff_not_single sample_to_json
           (Some empty_channel) None None None None None empty_channel
           (world_of []) eq_refl)).
Defined.

Lemma no_matching_exclusion_keeps_split_names_witness :
  exists w' c,
    __init__ sample_to_json (Some examples_channel) None None
      (Some ["holdout"]) None None None (world_of ["train"; "eval"])
      = (w', Return c) /\
    output_split_names w' c = [["train"; "eval"]].
Proof.
  apply (no_matching_exclusion_keeps_split_names sample_to_json
           (Some examples_channel) None None (Some ["holdout"]) None None
           examples_channel examples_artifact (world_of ["train"; "eval"]));
    [reflexivity|reflexivity|].
  intros e x [= <-] Hx. apply list_elem_of_singleton in Hx as ->.
  apply (bool_decide_unpack _). vm_compute. exact I.
Defined.

Lemma example_exclude_test_witness :
  exists w' c,
    __init__ sample_to_json (Some examples_channel) None None
      (Some ["test"]) None None None (world_of ["train"; "eval"; "test"])
      = (w', Return c) /\
    output_split_names w' c = [["train"; "eval"]].
Proof.
  apply (example_exclude_test sample_to_json (Some examples_channel) None None
           None None examples_channel examples_artifact); reflexivity.
Defined.

Lemma input_data_takes_precedence_witness :
  let r := __init__ sample_to_json (Some empty_channel) None None None None
             (Some examples_channel) None (world_of ["train"; "eval"]) in
  warnings r.1 = [deprecation_message] /\
  exists c, r.2 = Return c /\ examples (spec c) = examples_channel.
Proof.
  cbv zeta.
  destruct (input_data_takes_precedence sample_to_json None None None None None
              empty_channel examples_channel (world_of ["train"; "eval"]))
    as (_ & Hlog & Hex & Hok).
  split; [exact Hlog|].
  destruct (proj2 Hok (or_intror eq_refl)) as [c Hc].
  exists c. split; [exact Hc|exact (Hex c Hc)].
Defined.

Lemma derived_split_names_subsequence_witness :
  exists w' c R,
    __init__ sample_to_json (Some examples_channel) None None
      (Some ["eval"; "test"]) None None None (world_of ["train"; "eval"; "test"])
      = (w', Return c) /\
    output_split_names w' c = [R] /\
    R `sublist_of` ["train"; "eval"; "test"] /\
    (forall x, x ∈ ["train"; "eval"; "test"] -> x ∉ R ->
               exists e, Some ["eval"; "test"] = Some e /\ x ∈ e) /\
    without_excluded (Some ["eval"; "test"]) R = ["train"].
Proof.
  apply (derived_split_names_subsequence sample_to_json
           (Some examples_channel) None None (Some ["eval"; "test"]) None None
           examples_channel examples_artifact
           (world_of ["train"; "eval"; "test"])); reflexivity.
Defined.

(** * Further properties of the constructor *)

(** From here on [++] is the append of lists. *)
Open Scope list_scope.

(** ** The loop on a sequence split at the iterator's index *)

Lemma list_remove_middle x (pre rest : list string) :
  x ∉ pre -> list_remove x (pre ++ x :: rest) = Some (pre ++ rest).
Proof.
  induction pre as [|p pre IH]; simpl; intros Hx.
  - by rewrite decide_True.
  - apply not_elem_of_cons in Hx as [Hne Hx].
    rewrite decide_False by done. by rewrite (IH Hx).
Qed.

(** Past the end the iterator stops at once. *)
Lemma for_split_value_end E (names : list string) i :
  length names <= i -> for_split_value E names i = names.
Proof.
  intros Hi. rewrite for_split_value_step.
  by rewrite (lookup_ge_None_2 names i Hi).
Qed.

(** A name that is not excluded stays, and the iterator moves on. *)
Lemma for_split_value_keep E (pre : list string) x rest :
  excluded E x = false ->
  for_split_value E (pre ++ x :: rest) (length pre) =
  for_split_value E ((pre ++ [x]) ++ rest) (length (pre ++ [x])).
Proof.
  intros Hx. rewrite (for_split_value_step E (pre ++ x :: rest)).
  rewrite list_lookup_middle by done. rewrite Hx.
  rewrite <- app_assoc, length_app. done.
Qed.

(** An excluded name that does not occur earlier is removed where the
    iterator stands; the iterator moves on all the same. *)
Lemma for_split_value_drop E (pre : list string) x rest :
  excluded E x = true -> x ∉ pre ->
  for_split_value E (pre ++ x :: rest) (length pre) =
  for_split_value E (pre ++ rest) (length pre + 1).
Proof.
  intros Hx Hpre. rewrite (for_split_value_step E (pre ++ x :: rest)).
  rewrite list_lookup_middle by done. rewrite Hx.
  by rewrite list_remove_middle.
Qed.

(** ... so that the name which took the place of the removed one is never
    tested. *)
Lemma for_split_value_skip E (pre : list string) y rest :
  for_split_value E (pre ++ y :: rest) (length pre + 1) =
  for_split_value E ((pre ++ [y]) ++ rest) (length (pre ++ [y])).
Proof. rewrite <- app_assoc, length_app. done. Qed.

Lemma for_split_value_closed E n :
  forall pre rest : list string,
    length rest <= n -> NoDup (pre ++ rest) ->
    for_split_value E (pre ++ rest) (length pre) =
    pre ++ keep_after_removal E rest.
Proof.
  induction n as [n IH] using lt_wf_ind. intros pre rest Hn Hnd.
  destruct rest as [|x rest].
  - by apply for_split_value_end; rewrite app_nil_r.
  - simpl. destruct (excluded E x) eqn:Hx.
    + assert (Hpre : x ∉ pre).
      { apply list.NoDup_app in Hnd as (_ & Hdis & _). intros Hin.
        apply (Hdis x Hin). by left. }
      assert (Hnd' : NoDup (pre ++ rest)).
      { eapply sublist_NoDup; [exact Hnd|].
        apply sublist_app; [done|]. by apply sublist_cons. }
      rewrite for_split_value_drop by done.
      destruct rest as [|y rest].
      * apply for_split_value_end. rewrite length_app. simpl. lia.
      * rewrite for_split_value_skip.
        rewrite (IH (length rest)); [by rewrite <- app_assoc| |done|].
        -- simpl in Hn. lia.
        -- by rewrite <- app_assoc.
    + rewrite for_split_value_keep by done.
      rewrite (IH (length rest)); [by rewrite <- app_assoc| |done|].
      * simpl in Hn. lia.
      * by rewrite <- app_assoc.
Qed.

Lemma no_adjacent_excluded_tail E x rest :
  no_adjacent_excluded E (x :: rest) = true ->
  no_adjacent_excluded E rest = true.
Proof. simpl. by intros [_ ?]%andb_true_iff. Qed.

Lemma for_split_value_exact E n :
  forall pre rest : list string,
    length rest <= n ->
    (forall p, p ∈ pre -> excluded E p = false) ->
    no_adjacent_excluded E rest = true ->
    for_split_value E (pre ++ rest) (length pre) =
    pre ++ without_excluded E rest.
Proof.
  induction n as [n IH] using lt_wf_ind. intros pre rest Hn Hpre Hadj.
  assert (Hsnoc : forall y, excluded E y = false ->
            forall p, p ∈ pre ++ [y] -> excluded E p = false).
  { intros y Hy p [Hp|Hp]%elem_of_app; [by apply Hpre|].
    by apply list_elem_of_singleton in Hp as ->. }
  destruct rest as [|x rest].
  - by apply for_split_value_end; rewrite app_nil_r.
  - unfold without_excluded. destruct (excluded E x) eqn:Hx.
    + assert (Hxpre : x ∉ pre) by (intros Hin; apply Hpre in Hin; congruence).
      rewrite for_split_value_drop by done.
      rewrite filter_cons_False by (by intros Hn'; apply Hn', excluded_elem_of).
      destruct rest as [|y rest].
      * apply for_split_value_end. rewrite length_app. simpl. lia.
      * assert (Hy : excluded E y = false).
        { simpl in Hadj. rewrite Hx in Hadj. by destruct (excluded E y). }
        rewrite for_split_value_skip.
        rewrite (IH (length rest)); [| |done|by apply Hsnoc|].
        -- rewrite <- app_assoc. simpl. unfold without_excluded.
           rewrite (filter_cons_True _ y); [done|].
           intros Hin%excluded_elem_of. congruence.
        -- simpl in Hn. lia.
        -- by do 2 apply no_adjacent_excluded_tail in Hadj.
    + rewrite for_split_value_keep by done.
      rewrite (IH (length rest)); [| |done|by apply Hsnoc|].
      * rewrite <- app_assoc. simpl.
        rewrite (filter_cons_True _ x); [done|].
        intros Hin%excluded_elem_of. congruence.
      * simpl in Hn. lia.
      * by apply no_adjacent_excluded_tail in Hadj.
Qed.

(** Each removal costs the iterator one position: of the names from index
    [i] on, at most every other one can go. *)
Lemma for_split_value_length E (names : list string) i :
  2 * length names <=
  2 * length (for_split_value E names i) + (length names + 1 - i).
Proof.
  funelim (for_split_value E names i).
  - lia.
  - lia.
  - pose proof (list_remove_length _ _ _ Hr).
    pose proof (lookup_lt_Some _ _ _ Hi). lia.
  - lia.
Qed.

(** As long as no excluded name was met, the first one met is removed. *)
Lemma for_split_value_progress E (rest : list string) :
  forall pre : list string,
    (forall p, p ∈ pre -> excluded E p = false) ->
    (exists x, x ∈ rest /\ excluded E x = true) ->
    length (for_split_value E (pre ++ rest) (length pre)) < length (pre ++ rest).
Proof.
  induction rest as [|x rest IH]; intros pre Hpre (z & Hz & Hexc).
  - by apply elem_of_nil in Hz.
  - destruct (excluded E x) eqn:Hx.
    + assert (Hxpre : x ∉ pre) by (intros Hin; apply Hpre in Hin; congruence).
      rewrite for_split_value_drop by done.
      pose proof (sublist_length _ _
                    (for_split_value_sublist E (pre ++ rest) (length pre + 1))).
      rewrite !length_app in *. simpl. lia.
    + rewrite for_split_value_keep by done.
      replace (pre ++ x :: rest) with ((pre ++ [x]) ++ rest)
        by (by rewrite <- app_assoc).
      apply IH.
      * intros p [Hp|Hp]%elem_of_app; [by apply Hpre|].
        by apply list_elem_of_singleton in Hp as ->.
      * exists z. split; [|done].
        apply elem_of_cons in Hz as [->|Hz]; [congruence|done].
Qed.

(** ** The default output, case by case *)

Lemma default_output_cases o E w :
  (o = None /\ default_output o E w = (w, Raise AttributeError)) \/
  (exists ch, o = Some ch /\ length (get ch) <> 1 /\
     default_output o E w = (w, Raise (CardinalityError (length (get ch))))) \/
  (exists ch a w', o = Some ch /\ get ch = [a] /\
     default_output o E w =
       (w', Return (mkChannel "ExampleStatistics"
                      [mkArtifact "ExampleStatistics" (split_names a)])) /\
     warnings w' = warnings w /\
     split_names_of w' a = for_split_value E (split_names_of w a) 0 /\
     forall l, l <> split_names a -> heap w' l = heap w l).
Proof.
  destruct o as [ch|]; [|by left].
  right. destruct (single_or_not ch) as [[a Hget]|Hlen].
  - right. destruct (default_output_single ch a E w Hget) as (w' & ?).
    by exists ch, a, w'.
  - left. exists ch. by rewrite default_output_cardinality.
Qed.

Lemma alias_world_heap legacy w : heap (alias_world legacy w) = heap w.
Proof. unfold alias_world. by destruct (truthy_obj legacy). Qed.

Section FurtherProperties.

Context {StatsOptions : Type} (to_json : StatsOptions -> string).

(** The derived channel refers to the list object of the examples artifact. *)
Lemma init_derived_channel ex sch opts E legacy name ch a w :
  resolved_examples ex legacy = Some ch ->
  get ch = [a] ->
  exists w' c,
    __init__ to_json ex sch opts E None legacy name w = (w', Return c) /\
    statistics (spec c) =
      mkChannel "ExampleStatistics"
        [mkArtifact "ExampleStatistics" (split_names a)].
Proof.
  intros Hex Hget. rewrite init_default_output, Hex.
  destruct (default_output_single ch a E (alias_world legacy w) Hget)
    as (w' & -> & _).
  by eexists _, _.
Qed.

(** X1.  When no two neighbouring split names are both excluded, the derived
    output [split_names] is exactly the input sequence without the excluded
    names. *)
Theorem exclusion_exact_without_adjacent_exclusions
    ex sch opts E legacy name ch a w :
  resolved_examples ex legacy = Some ch ->
  get ch = [a] ->
  no_adjacent_excluded E (split_names_of w a) = true ->
  exists w' c,
    __init__ to_json ex sch opts E None legacy name w = (w', Return c) /\
    output_split_names w' c = [without_excluded E (split_names_of w a)].
Proof.
  intros Hex Hget Hadj.
  destruct (init_derived to_json ex sch opts E legacy name ch a w Hex Hget)
    as (w' & c & Hrun & _ & Hout & Hval & _).
  exists w', c. split; [done|]. rewrite Hout, Hval. f_equal.
  apply (for_split_value_exact E (length (split_names_of w a)) []);
    [done| |done].
  by intros p ?%elem_of_nil.
Qed.

(** X2.  On split names without repetition the derived output is the input
    sequence in which every excluded name met by the iterator is dropped and
    the name right after a dropped one is kept untested. *)
Theorem derived_split_names_closed_form ex sch opts E legacy name ch a w :
  resolved_examples ex legacy = Some ch ->
  get ch = [a] ->
  NoDup (split_names_of w a) ->
  exists w' c,
    __init__ to_json ex sch opts E None legacy name w = (w', Return c) /\
    output_split_names w' c = [keep_after_removal E (split_names_of w a)].
Proof.
  intros Hex Hget Hnd.
  destruct (init_derived to_json ex sch opts E legacy name ch a w Hex Hget)
    as (w' & c & Hrun & _ & Hout & Hval & _).
  exists w', c. split; [done|]. rewrite Hout, Hval. f_equal.
  by apply (for_split_value_closed E (length (split_names_of w a)) []).
Qed.

(** X3.  Whatever is excluded, at most every other split name is removed: of
    [n] input names at least [n / 2] (rounded down) are in the derived
    output. *)
Theorem at_most_every_other_name_removed ex sch opts E legacy name ch a w :
  resolved_examples ex legacy = Some ch ->
  get ch = [a] ->
  exists w' c R,
    __init__ to_json ex sch opts E None legacy name w = (w', Return c) /\
    output_split_names w' c = [R] /\
    length (split_names_of w a) <= 2 * length R + 1.
Proof.
  intros Hex Hget.
  destruct (init_derived to_json ex sch opts E legacy name ch a w Hex Hget)
    as (w' & c & Hrun & _ & Hout & Hval & _).
  exists w', c, (split_names_of w' a). split_and!; [done|done|].
  rewrite Hval.
  pose proof (for_split_value_length E (split_names_of w a) 0). lia.
Qed.

(** X4.  The derived output [split_names] equals the input sequence if and
    only if no name of the input is on the exclusion list: as soon as one
    is, at least one name is removed. *)
Theorem output_unchanged_iff_nothing_excluded ex sch opts E legacy name ch a w :
  resolved_examples ex legacy = Some ch ->
  get ch = [a] ->
  exists w' c R,
    __init__ to_json ex sch opts E None legacy name w = (w', Return c) /\
    output_split_names w' c = [R] /\
    (R = split_names_of w a <->
     forall x, x ∈ split_names_of w a -> x ∉ default [] E).
Proof.
  intros Hex Hget.
  destruct (init_derived to_json ex sch opts E legacy name ch a w Hex Hget)
    as (w' & c & Hrun & _ & Hout & Hval & _).
  exists w', c, (split_names_of w' a). split_and!; [done|done|].
  rewrite Hval. split.
  - intros Hsame x Hx Hexc.
    pose proof (for_split_value_progress E (split_names_of w a) []) as Hlt.
    simpl in Hlt. rewrite Hsame in Hlt.
    enough (length (split_names_of w a) < length (split_names_of w a)) by lia.
    apply Hlt; [by intros p ?%elem_of_nil|].
    exists x. split; [done|]. by apply excluded_elem_of.
  - intros Hno. apply for_split_value_id. intros x Hx.
    destruct (excluded E x) eqn:Hexc; [|done].
    apply excluded_elem_of in Hexc. by destruct (Hno x Hx).
Qed.

(** X5.  Every way construction can end.  It returns exactly when there is
    an examples channel and either an explicit output is given or the
    channel holds exactly one artifact.  Otherwise it raises, and then no
    list object has changed: [AttributeError] when neither an examples
    channel nor an output is given, the [TypeError] of the spec when an
    output is given without an examples channel, the cardinality error when
    the channel does not hold exactly one artifact and no output is given.
    [list.remove] never raises. *)
Theorem construction_outcomes ex sch opts E out legacy name w :
  let r := __init__ to_json ex sch opts E out legacy name w in
  match r.2 with
  | Return c =>
      exists ch, resolved_examples ex legacy = Some ch /\
                 (is_Some out \/ exists a, get ch = [a])
  | Raise e =>
      r.1 = alias_world legacy w /\
      ((resolved_examples ex legacy = None /\ out = None /\
        e = AttributeError) \/
       (resolved_examples ex legacy = None /\ is_Some out /\
        e = TypeError) \/
       exists ch, resolved_examples ex legacy = Some ch /\ out = None /\
                  length (get ch) <> 1 /\
                  e = CardinalityError (length (get ch)))
  end.
Proof.
  cbv zeta. destruct out as [o|].
  - rewrite init_explicit_output.
    destruct (resolved_examples ex legacy) as [ch|]; simpl.
    + exists ch. split; [done|]. left. by eexists.
    + split; [done|]. right. left. split_and!; [done|by eexists|done].
  - rewrite init_default_output.
    destruct (default_output_cases (resolved_examples ex legacy) E
                (alias_world legacy w))
      as [[Hnone ->]|[(ch & Hch & Hlen & ->)|(ch & a & w' & Hch & Hget & -> & _)]];
      simpl.
    + split; [done|]. by left.
    + split; [done|]. right. right. by exists ch.
    + rewrite Hch. simpl. exists ch. split; [done|]. right. by exists a.
Qed.

(** X6.  The only list object construction can change is the [split_names]
    list of the single examples artifact, and only when no explicit output
    is given and construction returns. *)
Theorem construction_frame ex sch opts E out legacy name w l :
  let r := __init__ to_json ex sch opts E out legacy name w in
  heap r.1 l <> heap w l ->
  out = None /\ (exists c, r.2 = Return c) /\
  exists ch a, resolved_examples ex legacy = Some ch /\ get ch = [a] /\
               l = split_names a.
Proof.
  cbv zeta. destruct out as [o|].
  - rewrite init_explicit_output.
    destruct (resolved_examples ex legacy) as [ch|]; simpl;
      by rewrite alias_world_heap.
  - rewrite init_default_output.
    destruct (default_output_cases (resolved_examples ex legacy) E
                (alias_world legacy w))
      as [[Hnone ->]|[(ch & Hch & Hlen & ->)
                     |(ch & a & w' & Hch & Hget & -> & _ & _ & Hframe)]];
      simpl.
    + by rewrite alias_world_heap.
    + by rewrite alias_world_heap.
    + rewrite Hch. simpl.
      intros Hl. split_and!; [done|by eexists|].
      exists ch, a. split_and!; [done|done|].
      destruct (decide (l = split_names a)) as [|Hne]; [done|].
      destruct Hl. by rewrite (Hframe l Hne), alias_world_heap.
Qed.

(** X7.  Whether construction returns or raises, the log grows by the
    deprecation warning when [input_data] is given and by nothing
    otherwise. *)
Theorem warnings_only_from_alias ex sch opts E out legacy name w :
  warnings (__init__ to_json ex sch opts E out legacy name w).1 =
  warnings w ++ (if truthy_obj legacy then [deprecation_message] else []).
Proof.
  assert (Halias : warnings (alias_world legacy w) =
            warnings w ++ (if truthy_obj legacy then [deprecation_message] else [])).
  { unfold alias_world. destruct (truthy_obj legacy); [done|].
    by rewrite app_nil_r. }
  destruct out as [o|].
  - rewrite init_explicit_output.
    by destruct (resolved_examples ex legacy).
  - rewrite init_default_output.
    destruct (default_output_cases (resolved_examples ex legacy) E
                (alias_world legacy w))
      as [[Hnone ->]|[(ch & Hch & Hlen & ->)
                     |(ch & a & w' & Hch & Hget & -> & Hlog & _)]];
      simpl; [done|done|].
    rewrite Hch. simpl. by rewrite Hlog.
Qed.

(** X9.  Two components built one after the other on the same examples
    channel: the second starts from the names the first left, so its output
    is a subsequence of the first's, and the first component's output
    artifact reads the second's result from then on. *)
Theorem second_construction_sees_first
    ex1 ex2 sch1 sch2 opts1 opts2 E1 E2 legacy1 legacy2 name1 name2 ch a w :
  resolved_examples ex1 legacy1 = Some ch ->
  resolved_examples ex2 legacy2 = Some ch ->
  get ch = [a] ->
  exists w1 c1 w2 c2 R1 R2,
    __init__ to_json ex1 sch1 opts1 E1 None legacy1 name1 w = (w1, Return c1) /\
    __init__ to_json ex2 sch2 opts2 E2 None legacy2 name2 w1 = (w2, Return c2) /\
    output_split_names w1 c1 = [R1] /\
    output_split_names w2 c2 = [R2] /\
    output_split_names w2 c1 = [R2] /\
    R2 `sublist_of` R1 /\
    (forall x, x ∈ R1 -> x ∉ R2 -> x ∈ default [] E2).
Proof.
  intros Hex1 Hex2 Hget.
  destruct (init_derived_channel ex1 sch1 opts1 E1 legacy1 name1
              ch a w Hex1 Hget) as (w1 & c1 & Hrun1 & Hstat1).
  assert (Hshare1 : forall w'', output_split_names w'' c1 = [split_names_of w'' a])
    by (intros w''; unfold output_split_names; by rewrite Hstat1).
  destruct (init_derived to_json ex2 sch2 opts2 E2 legacy2 name2 ch a w1
              Hex2 Hget) as (w2 & c2 & Hrun2 & _ & Hout2 & Hval2 & _).
  exists w1, c1, w2, c2, (split_names_of w1 a), (split_names_of w2 a).
  split_and!; [done|done|by apply Hshare1|done|by apply Hshare1| |].
  - rewrite Hval2. apply for_split_value_sublist.
  - rewrite Hval2. intros x. apply for_split_value_dropped.
Qed.

End FurtherProperties.

(** ** The further properties on sample inputs *)

Lemma exclusion_exact_without_adjacent_exclusions_witness :
  exists w' c,
    __init__ sample_to_json (Some examples_channel) None None
      (Some ["train"; "test"]) None None None
      (world_of ["train"; "eval"; "test"]) = (w', Return c) /\
    output_split_names w' c = [["eval"]].
Proof.
  apply (exclusion_exact_without_adjacent_exclusions sample_to_json
           (Some examples_channel) None None (Some ["train"; "test"]) None None
           examples_channel examples_artifact
           (world_of ["train"; "eval"; "test"])); reflexivity.
Defined.

Lemma derived_split_names_closed_form_witness :
  exists w' c,
    __init__ sample_to_json (Some examples_channel) None None
      (Some ["train"; "eval"]) None None None
      (world_of ["train"; "eval"; "test"]) = (w', Return c) /\
    output_split_names w' c = [["eval"; "test"]].
Proof.
  apply (derived_split_names_closed_form sample_to_json
           (Some examples_channel) None None (Some ["train"; "eval"]) None None
           examples_channel examples_artifact
           (world_of ["train"; "eval"; "test"])); [reflexivity|reflexivity|].
  apply (bool_decide_unpack _). vm_compute. exact I.
Defined.

Lemma at_most_every_other_name_removed_witness :
  exists w' c R,
    __init__ sample_to_json (Some examples_channel) None None
      (Some ["train"; "eval"; "test"]) None None None
      (world_of ["train"; "eval"; "test"]) = (w', Return c) /\
    output_split_names w' c = [R] /\
    3 <= 2 * length R + 1.
Proof.
  apply (at_most_every_other_name_removed sample_to_json
           (Some examples_channel) None None (Some ["train"; "eval"; "test"])
           None None examples_channel examples_artifact
           (world_of ["train"; "eval"; "test"])); reflexivity.
Defined.

Lemma output_unchanged_iff_nothing_excluded_witness :
  exists w' c R,
    __init__ sample_to_json (Some examples_channel) None None
      (Some ["test"]) None None None
      (world_of ["train"; "eval"; "test"]) = (w', Return c) /\
    output_split_names w' c = [R] /\
    (R = ["train"; "eval"; "test"] <->
     forall x, x ∈ ["train"; "eval"; "test"] -> x ∉ ["test"]).
Proof.
  apply (output_unchanged_iff_nothing_excluded sample_to_json
           (Some examples_channel) None None (Some ["test"]) None None
           examples_channel examples_artifact
           (world_of ["train"; "eval"; "test"])); reflexivity.
Defined.

Lemma construction_frame_witness :
  let w := world_of ["train"; "eval"; "test"] in
  let r := __init__ sample_to_json (Some examples_channel) None None
             (Some ["test"]) None None None w in
  heap r.1 0 <> heap w 0 /\
  exists ch a, resolved_examples (Some examples_channel) None = Some ch /\
               get ch = [a] /\ 0 = split_names a.
Proof.
  intros w r.
  assert (Hchanged : heap r.1 0 <> heap w 0) by (vm_compute; discriminate).
  split; [exact Hchanged|].
  exact (proj2 (proj2 (construction_frame sample_to_json
           (Some examples_channel) None None (Some ["test"]) None None None
           w 0 Hchanged))).
Defined.

Lemma second_construction_sees_first_witness :
  exists w1 c1 w2 c2 R1 R2,
    __init__ sample_to_json (Some examples_channel) None None
      (Some ["eval"; "test"]) None None None
      (world_of ["train"; "eval"; "test"]) = (w1, Return c1) /\
    __init__ sample_to_json None None None
      (Some ["eval"; "test"]) None (Some examples_channel) None w1
      = (w2, Return c2) /\
    output_split_names w1 c1 = [R1] /\
    output_split_names w2 c2 = [R2] /\
    output_split_names w2 c1 = [R2] /\
    R2 `sublist_of` R1 /\
    (forall x, x ∈ R1 -> x ∉ R2 -> x ∈ ["eval"; "test"]).
Proof.
  apply (second_construction_sees_first sample_to_json
           (Some examples_channel) None None None None None
           (Some ["eval"; "test"]) (Some ["eval"; "test"])
           None (Some examples_channel) None None
           examples_channel examples_artifact
           (world_of ["train"; "eval"; "test"])); reflexivity.
Defined.
